(** * The item registry of [main.py]

    A shallow embedding of the request handlers of [src/main.py] that work
    on the two module-level collections, [fake_db] and [items], together
    with the response filters their decorators declare.

    Python [float] is IEEE 754 binary64, embedded as Rocq's primitive
    [float]; Python [int] is unbounded, embedded as [Z].  Handlers run in a
    state-and-exception monad over the module globals.  Where sharing
    matters the records are objects in a store and the registry holds
    references to them (module [Objects]). *)

From Stdlib Require Import ZArith String List Floats Lia.
From stdpp Require Import base list gmap strings.

Open Scope string_scope.
Open Scope Z_scope.

(** ** Values crossing the HTTP boundary *)

(** What a handler hands back to the framework: [None], integers, floats and
    strings; a Python [dict] literal keeps its insertion order, and is an
    association list. *)
Inductive json : Type :=
  | JNull
  | JInt (z : Z)
  | JFloat (f : float)
  | JStr (s : string).

Definition dict : Type := list (string * json).

Fixpoint dict_get (k : string) (d : dict) : option json :=
  match d with
  | [] => None
  | (k', v) :: d' => if String.eqb k k' then Some v else dict_get k d'
  end.

Definition of_opt {A : Type} (inj : A → json) (o : option A) : json :=
  match o with
  | Some a => inj a
  | None => JNull
  end.

(** ** [class Item(BaseModel)], lines 159-164 *)

Record Item : Type := mkItem {
  name : string;
  description : option string;
  price : float;
  tax : option float;
  total_price : option float
}.

(** [item.total_price = v] : attribute assignment on the request's own
    object. *)
Definition set_total_price (item : Item) (v : option float) : Item :=
  {| name := name item;
     description := description item;
     price := price item;
     tax := tax item;
     total_price := v |}.

(** ** Module globals and the handler monad *)

(** [fake_db] (line 101) and [items] (line 172) are two distinct
    module-level lists. *)
Record World : Type := mkWorld {
  fake_db : list dict;
  items : list Item
}.

Inductive exn : Type :=
  | TypeError
  | ValueError.

Inductive result (A : Type) : Type :=
  | Ok (a : A)
  | Raise (e : exn).
Arguments Ok {A} a.
Arguments Raise {A} e.

Definition M (A : Type) : Type := World → result (A * World).

Definition ret {A : Type} (a : A) : M A := fun w => Ok (a, w).

Definition bind {A B : Type} (c : M A) (k : A → M B) : M B :=
  fun w =>
    match c w with
    | Ok (a, w') => k a w'
    | Raise e => Raise e
    end.

Definition raise {A : Type} (e : exn) : M A := fun _ => Raise e.

Notation "x <- c ;; k" := (bind c (fun x => k))
  (at level 100, c at next level, right associativity).
Notation "c ;;; k" := (bind c (fun _ => k))
  (at level 100, right associativity).

Definition read_fake_db : M (list dict) := fun w => Ok (fake_db w, w).
Definition read_items_global : M (list Item) := fun w => Ok (items w, w).

(** [items.append(x)] : in-place growth of the global list at its end. *)
Definition items_append (x : Item) : M unit :=
  fun w => Ok (tt, {| fake_db := fake_db w; items := items w ++ [x] |}).

(** ** Python primitives used by the handlers *)

(** [x + y] with [x : float] and [y : float | None]: float addition, and a
    [TypeError] when the right operand is [None]. *)
Definition py_add (x : float) (y : option float) : M float :=
  match y with
  | Some y' => ret (x + y')%float
  | None => raise TypeError
  end.

(** Index adjustment of a slice bound against a sequence of length [n]:
    a negative bound counts from the end, then both are clamped into
    [0..n]. *)
Definition adjust_index (n i : Z) : Z :=
  if i <? 0 then Z.max (i + n) 0 else Z.min i n.

(** [l[start:stop]] *)
Definition py_slice {A : Type} (l : list A) (start stop : Z) : list A :=
  let n := Z.of_nat (length l) in
  let lo := adjust_index n start in
  let hi := adjust_index n stop in
  take (Z.to_nat (hi - lo)) (drop (Z.to_nat lo) l).

(** ** Query parameters: [/dbItems/], lines 101-105 *)

Definition fake_db_init : list dict :=
  [ [("item_id", JInt 1); ("name", JStr "item1")];
    [("item_id", JInt 2); ("name", JStr "item2")];
    [("item_id", JInt 3); ("name", JStr "item3")] ].

Definition initial_world : World :=
  {| fake_db := fake_db_init; items := [] |}.

Module DbItems.

Definition start_default : Z := 0.
Definition limit_default : Z := 10.

(** [async def read_items(start: int = 0, limit: int = 10)] *)
Definition read_items (start limit : Z) : M (list dict) :=
  db <- read_fake_db ;;
  ret (py_slice db start (start + limit)).

(** The query string may leave either parameter out. *)
Definition read_items_query (start limit : option Z) : M (list dict) :=
  read_items (default start_default start) (default limit_default limit).

End DbItems.

(** ** Request body: [/items/], lines 175-181 *)

Definition create_item_reply : string := "successfully added a new item".

Definition create_item (item : Item) : M string :=
  item' <- match tax item with
           | Some _ =>
               tp <- py_add (price item) (tax item) ;;
               ret (set_total_price item (Some tp))
           | None => ret item
           end ;;
  items_append item' ;;;
  ret create_item_reply.

(** ** [/fullItem/], lines 204-206 *)

Module FullItem.

Definition read_items : M (list Item) := read_items_global.

End FullItem.

(** ** Response models: [/namePrice/] and [/minimalItem/], lines 247-258 *)

Definition namePrice : M (list Item) := read_items_global.

Definition itemsMinusDescription : M (list Item) := read_items_global.

(** The three decorator arguments of lines 235-238; the sets are the ones
    under the ["__all__"] key, which applies them to every element of the
    returned list. *)
Record ResponseModel : Type := mkResponseModel {
  response_model_include : option (gset string);
  response_model_exclude : option (gset string);
  response_model_exclude_none : bool
}.

Definition no_filter : ResponseModel :=
  {| response_model_include := None;
     response_model_exclude := None;
     response_model_exclude_none := false |}.

Definition namePrice_model : ResponseModel :=
  {| response_model_include := Some ({[ "price"; "name" ]} : gset string);
     response_model_exclude := None;
     response_model_exclude_none := false |}.

Definition itemsMinusDescription_model : ResponseModel :=
  {| response_model_include := None;
     response_model_exclude := Some ({[ "description" ]} : gset string);
     response_model_exclude_none := true |}.

(** All five fields of an [Item], in declaration order. *)
Definition Item_dump (it : Item) : dict :=
  [ ("name", JStr (name it));
    ("description", of_opt JStr (description it));
    ("price", JFloat (price it));
    ("tax", of_opt JFloat (tax it));
    ("total_price", of_opt JFloat (total_price it)) ].

Definition is_null (v : json) : bool :=
  match v with
  | JNull => true
  | _ => false
  end.

(** Modelled from the spec: the framework's response filter, which is not
    under [src/] (the decorators of lines 247 and 251-256 only configure
    it).  A field is kept when it is in the inclusion set (if one is
    given), is not in the exclusion set (if one is given), and, with
    [response_model_exclude_none], its value is not [None]. *)
Definition keep_field (m : ResponseModel) (kv : string * json) : bool :=
  match response_model_include m with
  | Some inc => bool_decide (kv.1 ∈ inc)
  | None => true
  end
  && match response_model_exclude m with
     | Some exc => negb (bool_decide (kv.1 ∈ exc))
     | None => true
     end
  && negb (response_model_exclude_none m && is_null kv.2).

(** Modelled from the spec: the projection of one record, and of the
    returned list record by record (the framework's serializer, not under
    [src/]). *)
Definition serialize_item (m : ResponseModel) (it : Item) : dict :=
  List.filter (keep_field m) (Item_dump it).

Definition serialize_response (m : ResponseModel) (l : list Item)
  : list dict :=
  map (serialize_item m) l.

(** Modelled from the spec: a route with a response model, which the
    framework (not under [src/]) serves by running the handler and then
    filtering what it returned. *)
Definition respond (m : ResponseModel) (h : M (list Item)) : M (list dict) :=
  l <- h ;;
  ret (serialize_response m l).

Definition namePrice_route : M (list dict) :=
  respond namePrice_model namePrice.

Definition itemsMinusDescription_route : M (list dict) :=
  respond itemsMinusDescription_model itemsMinusDescription.

(** ** Runs of the service *)

(** A burst of [POST /items/] requests, served one after the other. *)
Fixpoint create_items (cs : list Item) : M unit :=
  match cs with
  | [] => ret tt
  | c :: cs' => create_item c ;;; create_items cs'
  end.

(** The record [create_item] leaves in the registry for a candidate, in
    closed form ([create_item_run] below relates it to the handler). *)
Definition stored (c : Item) : Item :=
  match tax c with
  | Some t => set_total_price c (Some (price c + t)%float)
  | None => c
  end.

(** The states the process can be in: the one at start-up, and any state
    a successful [create_item] leads to (no other handler writes). *)
Inductive reachable : World → Prop :=
  | reachable_init : reachable initial_world
  | reachable_create w c r w' :
      reachable w →
      create_item c w = Ok (r, w') →
      reachable w'.

(** ** Sample records *)

Definition widget : Item :=
  {| name := "widget"; description := None; price := 9.5%float;
     tax := None; total_price := None |}.

Definition gadget : Item :=
  {| name := "gadget"; description := Some "a gadget"; price := 5%float;
     tax := Some 0.5%float; total_price := None |}.

(** The invariant as the data model words it: with a tax the total is
    price plus tax, without one the total is unset. *)
Definition total_price_consistent (it : Item) : Prop :=
  match tax it with
  | Some t => total_price it = Some (price it + t)%float
  | None => total_price it = None
  end.

(** A candidate that carries a total of its own and no tax. *)
Definition priced_widget : Item :=
  {| name := "widget"; description := None; price := 1%float;
     tax := None; total_price := Some 7%float |}.

(** ** Greetings: [/], [/hello], [/hello/{name}], lines 25-47 *)

Definition root : M dict :=
  ret [("message", JStr "Hello World")].

Definition hello : M dict :=
  ret [("message", JStr "Hello from the /hello route!")].

(** [f"Hello {name}"] *)
Definition hello_name (name : string) : M dict :=
  ret [("message", JStr ("Hello " ++ name)%string)].

(** ** Restricted path parameter: [/food/{foodName}], lines 71-82 *)

(** [class Food(str, Enum)]: three members, each with a string value. *)
Inductive Food : Type :=
  | pizza
  | burger
  | sushi.

Definition Food_members : list Food := [pizza; burger; sushi].

(** [foodName.value] *)
Definition Food_value (f : Food) : string :=
  match f with
  | pizza => "pizza"
  | burger => "burger"
  | sushi => "sushi"
  end.

(** [Food(s)]: the member whose value is [s], looked up among the members
    in definition order; no member, no value of the enum. *)
Definition Food_of_value (s : string) : option Food :=
  List.find (fun f => String.eqb (Food_value f) s) Food_members.

(** [a == b] on members of a [str]-mixin enum compares the string values. *)
Definition Food_eqb (a b : Food) : bool :=
  String.eqb (Food_value a) (Food_value b).

Definition get_food (foodName : Food) : M dict :=
  if Food_eqb foodName pizza
  then ret [("message", JStr "You ordered pizza")]
  else ret [("message",
             JStr ("You are getting " ++ Food_value foodName)%string)].

(** ** Path and query together: [/search/{query}], lines 120-125 *)

(** Truth value of a [str | None]: [None] and the empty string are false. *)
Definition py_truthy (q : option string) : bool :=
  match q with
  | Some s => negb (String.eqb s "")
  | None => false
  end.

(** [f"{q}"] for a [str | None]. *)
Definition py_format (q : option string) : string :=
  match q with
  | Some s => s
  | None => "None"
  end.

Definition search_items (query : string) (q : option string) : M dict :=
  if py_truthy q
  then ret [("message",
             JStr ("Searching for " ++ query
                   ++ " with additional query " ++ py_format q)%string)]
  else ret [("message", JStr ("Searching for " ++ query)%string)].

(** ** The application as a whole *)

(** One request per decorated route (method and path of the decorator),
    carrying the arguments the handler is called with. *)
Inductive Request : Type :=
  | GET_root
  | GET_hello
  | GET_hello_name (name : string)
  | GET_food (foodName : Food)
  | GET_dbItems (start limit : option Z)
  | GET_search (query : string) (q : option string)
  | POST_items (item : Item)
  | GET_fullItem
  | GET_namePrice
  | GET_minimalItem.

Inductive Response : Type :=
  | Message (d : dict)
  | Rows (l : list dict)
  | Items (l : list Item)
  | Text (s : string).

Definition is_POST (r : Request) : bool :=
  match r with
  | POST_items _ => true
  | _ => false
  end.

Definition reply {A : Type} (f : A → Response) (h : M A) : M Response :=
  x <- h ;; ret (f x).

(** The handler each route is bound to. *)
Definition handle (r : Request) : M Response :=
  match r with
  | GET_root => reply Message root
  | GET_hello => reply Message hello
  | GET_hello_name n => reply Message (hello_name n)
  | GET_food f => reply Message (get_food f)
  | GET_dbItems start limit =>
      reply Rows (DbItems.read_items_query start limit)
  | GET_search query q => reply Message (search_items query q)
  | POST_items item => reply Text (create_item item)
  | GET_fullItem => reply Items FullItem.read_items
  | GET_namePrice => reply Rows namePrice_route
  | GET_minimalItem => reply Rows itemsMinusDescription_route
  end.

(** Requests served one after the other. *)
Fixpoint serve (rs : list Request) : M (list Response) :=
  match rs with
  | [] => ret []
  | r :: rs' =>
      x <- handle r ;;
      xs <- serve rs' ;;
      ret (x :: xs)
  end.

(** The bodies of the [POST /items/] requests of a run, in order. *)
Fixpoint posted (rs : list Request) : list Item :=
  match rs with
  | [] => []
  | POST_items item :: rs' => item :: posted rs'
  | _ :: rs' => posted rs'
  end.

(** ** Rendering a response *)






(** The encoder of a route with a response model writes [null] for such a
    float. *)
Definition json_float (f : float) : json :=
  if is_finite f then JFloat f else JNull.

Definition json_mode_value (v : json) : json :=
  match v with
  | JFloat f => json_float f
  | _ => v
  end.

Definition json_mode (d : dict) : dict :=
  map (fun kv => (kv.1, json_mode_value kv.2)) d.




Definition itemsMinusDescription_http : M (list dict) :=
  out <- itemsMinusDescription_route ;;
  ret (map json_mode out).

(** A candidate whose numbers are finite and whose total is not: the sum
    of price and tax is beyond the largest binary64 number. *)
Definition heavy : Item :=
  {| name := "heavy"; description := None; price := 0x1p1023%float;
     tax := Some 0x1p1023%float; total_price := None |}.

(** ** The registry as Python holds it: objects and references *)

Module Objects.

Definition addr : Type := nat.

(** An [Item] is an object with an identity; [items] holds references, and
    what a handler returns is the same references again. *)
Record Store : Type := mkStore {
  heap : addr → Item;
  fresh : addr;
  fake_db : list dict;
  items : list addr
}.

Definition M (A : Type) : Type := Store → result (A * Store).

Definition ret {A : Type} (a : A) : M A := fun s => Ok (a, s).

Definition bind {A B : Type} (c : M A) (k : A → M B) : M B :=
  fun s =>
    match c s with
    | Ok (a, s') => k a s'
    | Raise e => Raise e
    end.

Definition raise {A : Type} (e : exn) : M A := fun _ => Raise e.

Notation "x <~ c ;; k" := (bind c (fun x => k))
  (at level 100, c at next level, right associativity).
Notation "c ;;~ k" := (bind c (fun _ => k))
  (at level 100, right associativity).

Definition heap_set (h : addr → Item) (a : addr) (it : Item) : addr → Item :=
  fun b => if Nat.eqb b a then it else h b.

(** The object the framework builds from a request body before it calls
    the handler. *)
Definition new_Item (body : Item) : M addr :=
  fun s =>
    Ok (fresh s,
        {| heap := heap_set (heap s) (fresh s) body;
           fresh := S (fresh s);
           fake_db := fake_db s;
           items := items s |}).

(** Reading an object through a reference. *)
Definition deref (a : addr) : M Item := fun s => Ok (heap s a, s).

(** [item.total_price = v] : a write to the object itself, seen through
    every reference to it. *)
Definition setattr_total_price (a : addr) (v : option float) : M unit :=
  fun s =>
    Ok (tt,
        {| heap := heap_set (heap s) a (set_total_price (heap s a) v);
           fresh := fresh s;
           fake_db := fake_db s;
           items := items s |}).

(** [items.append(item)] stores the reference. *)
Definition items_append (a : addr) : M unit :=
  fun s =>
    Ok (tt,
        {| heap := heap s;
           fresh := fresh s;
           fake_db := fake_db s;
           items := items s ++ [a] |}).

Definition py_add (x : float) (y : option float) : M float :=
  match y with
  | Some y' => ret (x + y')%float
  | None => raise TypeError
  end.

(** Lines 176-181, on the request's object. *)
Definition create_item (item : addr) : M string :=
  it <~ deref item ;;
  match tax it with
  | Some _ =>
      tp <~ py_add (price it) (tax it) ;;
      setattr_total_price item (Some tp)
  | None => ret tt
  end ;;~
  items_append item ;;~
  ret create_item_reply.

Definition post_items (body : Item) : M string :=
  item <~ new_Item body ;;
  create_item item.

(** Lines 248-249 and 257-258: [return items], the registry's own
    references. *)
Definition namePrice : M (list addr) := fun s => Ok (items s, s).

Definition itemsMinusDescription : M (list addr) := fun s => Ok (items s, s).

(** Modelled from the spec: the framework's serializer (not under [src/])
    goes through the returned sequence, reads each record through its
    reference and builds a new output record from it, "applied
    independently to every record in the sequence". *)
Fixpoint serialize_refs (m : ResponseModel) (refs : list addr)
  : M (list dict) :=
  match refs with
  | [] => ret []
  | a :: refs' =>
      it <~ deref a ;;
      ds <~ serialize_refs m refs' ;;
      ret (serialize_item m it :: ds)
  end.

(** Modelled from the spec: a route with a response model, served by the
    framework (not under [src/]): the handler, then the serializer on what
    it returned. *)
Definition respond (m : ResponseModel) (h : M (list addr)) : M (list dict) :=
  refs <~ h ;;
  serialize_refs m refs.

Definition namePrice_route : M (list dict) :=
  respond namePrice_model namePrice.

Definition itemsMinusDescription_route : M (list dict) :=
  respond itemsMinusDescription_model itemsMinusDescription.

End Objects.

(** The records behind the references: the registry as a sequence of
    values. *)
Definition abstract (s : Objects.Store) : World :=
  {| fake_db := Objects.fake_db s;
     items := map (Objects.heap s) (Objects.items s) |}.

(** Every reference of the registry is to an object that exists. *)
Definition well_formed (s : Objects.Store) : Prop :=
  Forall (fun a => (a < Objects.fresh s)%nat) (Objects.items s).

Definition empty_store : Objects.Store :=
  {| Objects.heap := fun _ => widget;
     Objects.fresh := 0%nat;
     Objects.fake_db := fake_db_init;
     Objects.items := [] |}.

(** * Properties *)

(** ** Running the handlers *)

Lemma bind_ok {A B : Type} (c : M A) (k : A → M B) w a w' :
  c w = Ok (a, w') → (x <- c ;; k x) w = k a w'.
Proof. intros Hc. unfold bind. now rewrite Hc. Qed.

Lemma create_item_run c w :
  create_item c w
  = Ok (create_item_reply,
        {| fake_db := fake_db w; items := items w ++ [stored c] |}).
Proof.
  unfold create_item, stored.
  destruct (tax c) as [t|]; reflexivity.
Qed.

Lemma create_items_run cs : ∀ w,
  create_items cs w
  = Ok (tt, {| fake_db := fake_db w; items := items w ++ map stored cs |}).
Proof.
  induction cs as [|c cs IH]; intros w; simpl.
  - rewrite app_nil_r. now destruct w.
  - erewrite bind_ok by apply create_item_run.
    rewrite IH. simpl. now rewrite <- app_assoc.
Qed.

Lemma stored_tax c : tax (stored c) = tax c.
Proof. unfold stored. destruct (tax c) eqn:E; simpl; auto. Qed.

Lemma stored_total_price c t :
  tax c = Some t → total_price (stored c) = Some (price c + t)%float.
Proof. unfold stored. now intros ->. Qed.

Lemma stored_no_tax c : tax c = None → stored c = c.
Proof. unfold stored. now intros ->. Qed.

Lemma stored_price c : price (stored c) = price c.
Proof. unfold stored. now destruct (tax c). Qed.

Lemma reachable_fake_db w : reachable w → fake_db w = fake_db_init.
Proof.
  induction 1 as [|w c r w' _ IH Hrun]; [reflexivity|].
  rewrite create_item_run in Hrun. now inversion Hrun.
Qed.

Lemma window_run start limit w :
  DbItems.read_items start limit w
  = Ok (py_slice (fake_db w) start (start + limit), w).
Proof. reflexivity. Qed.

Lemma respond_run m w :
  respond m read_items_global w = Ok (serialize_response m (items w), w).
Proof. reflexivity. Qed.

(** Non-negative bounds reduce a slice to "skip [start], then keep at most
    [limit]". *)
Lemma py_slice_nonneg {A : Type} (l : list A) start limit :
  0 ≤ start → 0 ≤ limit →
  py_slice l start (start + limit)
  = take (Z.to_nat limit) (drop (Z.to_nat start) l).
Proof.
  intros Hs Hl. unfold py_slice, adjust_index.
  destruct (Z.ltb_spec start 0) as [?|_]; [lia|].
  destruct (Z.ltb_spec (start + limit) 0) as [?|_]; [lia|].
  destruct (Z_le_gt_dec (Z.of_nat (length l)) start) as [Hge|Hlt].
  - rewrite !(drop_ge l) by lia. now rewrite !take_nil.
  - rewrite (Z.min_l start) by lia.
    destruct (Z_le_gt_dec (start + limit) (Z.of_nat (length l))) as [Hin|Hout].
    + rewrite Z.min_l by lia. f_equal. lia.
    + rewrite Z.min_r by lia.
      rewrite !take_ge; [reflexivity | rewrite length_drop; lia
                        | rewrite length_drop; lia].
Qed.

Lemma serialize_no_filter it : serialize_item no_filter it = Item_dump it.
Proof. reflexivity. Qed.

Lemma serialize_namePrice it :
  serialize_item namePrice_model it
  = [("name", JStr (name it)); ("price", JFloat (price it))].
Proof.
  destruct it as [n d p t tp]. unfold serialize_item, Item_dump. simpl.
  destruct d, t, tp; vm_compute; reflexivity.
Qed.

Lemma serialize_minimal_no_tax it :
  tax it = None →
  serialize_item itemsMinusDescription_model it
  = ([("name", JStr (name it)); ("price", JFloat (price it))]
     ++ match total_price it with
        | Some tp => [("total_price", JFloat tp)]
        | None => []
        end)%list.
Proof.
  destruct it as [n d p t tp]. simpl. intros ->.
  destruct d, tp; vm_compute; reflexivity.
Qed.

(** ** Sample executions *)

Example create_widget_gadget :
  (create_item widget ;;; create_item gadget ;;; FullItem.read_items)
    initial_world
  = Ok ([widget; set_total_price gadget (Some 5.5%float)],
        {| fake_db := fake_db_init;
           items := [widget; set_total_price gadget (Some 5.5%float)] |}).
Proof. reflexivity. Qed.

Example minimal_widget_gadget :
  (create_items [widget; gadget] ;;; itemsMinusDescription_route) initial_world
  = Ok ([ [("name", JStr "widget"); ("price", JFloat 9.5%float)];
          [("name", JStr "gadget"); ("price", JFloat 5%float);
           ("tax", JFloat 0.5%float); ("total_price", JFloat 5.5%float)] ],
        {| fake_db := fake_db_init;
           items := [widget; set_total_price gadget (Some 5.5%float)] |}).
Proof. vm_compute. reflexivity. Qed.

Example namePrice_widget_gadget :
  (create_items [widget; gadget] ;;; namePrice_route) initial_world
  = Ok ([ [("name", JStr "widget"); ("price", JFloat 9.5%float)];
          [("name", JStr "gadget"); ("price", JFloat 5%float)] ],
        {| fake_db := fake_db_init;
           items := [widget; set_total_price gadget (Some 5.5%float)] |}).
Proof. vm_compute. reflexivity. Qed.

Example window_negative_start :
  DbItems.read_items (-1) 10 initial_world
  = Ok ([ [("item_id", JInt 3); ("name", JStr "item3")] ], initial_world).
Proof. reflexivity. Qed.

(** ** The registry invariant *)

(** C1, as worded, does not hold of the code: a candidate without tax that
    brings its own [total_price] is stored with that total, so a reachable
    registry holds a record with tax unset and total_price set. *)
Lemma registry_invariant_as_worded_fails :
  ¬ (∀ w, reachable w → Forall total_price_consistent (items w)).
Proof.
  intros Hinv.
  assert (Hr : reachable
                 {| fake_db := fake_db_init; items := [priced_widget] |}).
  { apply (reachable_create initial_world priced_widget create_item_reply);
      [apply reachable_init | reflexivity]. }
  apply Hinv in Hr. simpl in Hr.
  apply Forall_cons in Hr as [Hw _].
  unfold total_price_consistent in Hw. simpl in Hw. discriminate Hw.
Qed.

(** C1 (amended): in every reachable registry, each stored record with a
    tax has total_price = price + tax; appending a candidate without tax
    stores it as it came, so its total_price is the candidate's own, and is
    unset whenever the candidate's is. *)
Theorem registry_invariant w :
  reachable w →
  (∀ it t, it ∈ items w → tax it = Some t →
           total_price it = Some (price it + t)%float)
  ∧ (∀ c, tax c = None →
          ∃ w', create_item c w = Ok (create_item_reply, w')
                ∧ reachable w'
                ∧ items w' = (items w ++ [c])%list
                ∧ ∀ it, last (items w') = Some it →
                        total_price it = total_price c
                        ∧ (total_price c = None → total_price it = None)).
Proof.
  intros Hr. split.
  - induction Hr as [|w c r w' _ IH Hrun]; intros it t Hin Htax.
    + simpl in Hin. now apply elem_of_nil in Hin.
    + rewrite create_item_run in Hrun. inversion Hrun; subst; clear Hrun.
      simpl in Hin. apply elem_of_app in Hin as [Hin|Hin].
      * now apply IH.
      * apply list_elem_of_singleton in Hin. subst it.
        rewrite stored_tax in Htax. rewrite stored_price.
        now apply stored_total_price.
  - intros c Hc. eexists. split; [apply create_item_run|].
    rewrite (stored_no_tax c Hc). simpl. split; [|split; [reflexivity|]].
    + eapply reachable_create; [exact Hr|].
      rewrite create_item_run. now rewrite (stored_no_tax c Hc).
    + intros it. rewrite last_snoc. intros [= <-]. auto.
Qed.

Lemma registry_invariant_witness :
  (∀ it t, it ∈ [priced_widget; stored gadget] → tax it = Some t →
           total_price it = Some (price it + t)%float)
  ∧ (∀ c, tax c = None →
          ∃ w', create_item c
                  {| fake_db := fake_db_init;
                     items := [priced_widget; stored gadget] |}
                = Ok (create_item_reply, w')
                ∧ reachable w'
                ∧ items w' = ([priced_widget; stored gadget] ++ [c])%list
                ∧ ∀ it, last (items w') = Some it →
                        total_price it = total_price c
                        ∧ (total_price c = None → total_price it = None)).
Proof.
  apply (registry_invariant
           {| fake_db := fake_db_init;
              items := [priced_widget; stored gadget] |}).
  apply (reachable_create
           {| fake_db := fake_db_init; items := [priced_widget] |}
           gadget create_item_reply); [|reflexivity].
  apply (reachable_create initial_world priced_widget create_item_reply);
    [apply reachable_init | reflexivity].
Defined.

(** ** Append *)

(** C2: for a candidate with tax set, [create_item] puts price + tax in
    total_price and stores the resulting record at the end of the
    sequence. *)
Theorem create_item_with_tax c t w :
  tax c = Some t →
  ∃ w', create_item c w = Ok (create_item_reply, w')
        ∧ fake_db w' = fake_db w
        ∧ items w'
          = (items w ++ [set_total_price c (Some (price c + t)%float)])%list
        ∧ ∃ it, last (items w') = Some it
                ∧ total_price it = Some (price c + t)%float
                ∧ name it = name c ∧ description it = description c
                ∧ price it = price c ∧ tax it = Some t.
Proof.
  intros Ht. eexists. split; [apply create_item_run|]. simpl.
  unfold stored. rewrite Ht. split; [reflexivity|]. split; [reflexivity|].
  eexists. rewrite last_snoc. split; [reflexivity|]. simpl. auto.
Qed.

Lemma create_item_with_tax_witness :
  ∃ w', create_item gadget initial_world = Ok (create_item_reply, w')
        ∧ fake_db w' = fake_db initial_world
        ∧ items w'
          = (items initial_world
             ++ [set_total_price gadget (Some (price gadget + 0.5)%float)])%list
        ∧ ∃ it, last (items w') = Some it
                ∧ total_price it = Some (price gadget + 0.5)%float
                ∧ name it = name gadget ∧ description it = description gadget
                ∧ price it = price gadget ∧ tax it = Some 0.5%float.
Proof. apply (create_item_with_tax gadget 0.5%float initial_world). reflexivity. Defined.

(** The sum is the binary64 one: 5.0 + 0.5 is 5.5. *)
Example gadget_total :
  total_price (stored gadget) = Some 5.5%float.
Proof. reflexivity. Qed.

(** C10: the candidate type has a [total_price] field of its own.  Without
    tax, whatever the client put there is stored unchanged; with tax, it is
    replaced by price + tax. *)
Theorem create_item_supplied_total n d p tp w :
  create_item (mkItem n d p None tp) w
  = Ok (create_item_reply,
        {| fake_db := fake_db w;
           items := items w ++ [mkItem n d p None tp] |})
  ∧ ∀ t, create_item (mkItem n d p (Some t) tp) w
         = Ok (create_item_reply,
               {| fake_db := fake_db w;
                  items := items w
                           ++ [mkItem n d p (Some t) (Some (p + t)%float)] |}).
Proof. split; [|intros t]; apply create_item_run. Qed.

Example create_item_supplied_total_kept :
  create_item priced_widget initial_world
  = Ok (create_item_reply,
        {| fake_db := fake_db_init; items := [priced_widget] |}).
Proof. reflexivity. Qed.

(** ** Reading the whole registry *)

(** C6: [/fullItem/] hands back the stored sequence itself and leaves the
    globals alone; two appends show up in the order they were made, after
    everything stored before. *)
Theorem read_items_all w :
  FullItem.read_items w = Ok (items w, w)
  ∧ ∀ a b,
      (create_item a ;;; create_item b ;;; FullItem.read_items) w
      = Ok ((items w ++ [stored a; stored b])%list,
            {| fake_db := fake_db w;
               items := items w ++ [stored a; stored b] |}).
Proof.
  split; [reflexivity|]. intros a b.
  erewrite bind_ok by apply create_item_run.
  erewrite bind_ok by apply create_item_run.
  unfold FullItem.read_items, read_items_global. simpl.
  now rewrite <- app_assoc.
Qed.

(** ** Projections *)

(** C3: on [/minimalItem/] (exclusion set {description}, None-valued fields
    dropped), the output for a stored record without tax has neither
    description nor tax; name and price are there, and total_price is
    there exactly when it is set. *)
Theorem minimal_route_no_tax w (i : nat) it :
  items w !! i = Some it →
  tax it = None →
  ∃ out d,
    itemsMinusDescription_route w = Ok (out, w)
    ∧ length out = length (items w)
    ∧ out !! i = Some d
    ∧ dict_get "description" d = None
    ∧ dict_get "tax" d = None
    ∧ dict_get "name" d = Some (JStr (name it))
    ∧ dict_get "price" d = Some (JFloat (price it))
    ∧ dict_get "total_price" d = JFloat <$> total_price it.
Proof.
  intros Hi Htax.
  exists (serialize_response itemsMinusDescription_model (items w)).
  exists (serialize_item itemsMinusDescription_model it).
  split; [apply respond_run|].
  split; [apply length_map|].
  split; [unfold serialize_response; now rewrite list_lookup_fmap, Hi|].
  rewrite (serialize_minimal_no_tax it Htax).
  destruct (total_price it); simpl; auto 10.
Qed.

Lemma minimal_route_no_tax_witness :
  ∃ out d,
    itemsMinusDescription_route
      {| fake_db := fake_db_init; items := [stored gadget; priced_widget] |}
    = Ok (out,
          {| fake_db := fake_db_init;
             items := [stored gadget; priced_widget] |})
    ∧ length out = 2%nat
    ∧ out !! 1%nat = Some d
    ∧ dict_get "description" d = None
    ∧ dict_get "tax" d = None
    ∧ dict_get "name" d = Some (JStr "widget")
    ∧ dict_get "price" d = Some (JFloat 1%float)
    ∧ dict_get "total_price" d = Some (JFloat 7%float).
Proof.
  apply (minimal_route_no_tax
           {| fake_db := fake_db_init;
              items := [stored gadget; priced_widget] |}
           1%nat priced_widget); reflexivity.
Defined.

(** C4: on [/namePrice/] (inclusion set {price, name}) every output record
    consists of the name and the price of the stored one and nothing else;
    a record with a description loses it, and loses tax, as well. *)
Theorem namePrice_route_projects w :
  namePrice_route w
  = Ok (map (λ it, [("name", JStr (name it)); ("price", JFloat (price it))])
            (items w), w)
  ∧ ∀ n s p t tp,
      let d := serialize_item namePrice_model (mkItem n (Some s) p t tp) in
      dict_get "description" d = None
      ∧ dict_get "tax" d = None
      ∧ dict_get "total_price" d = None
      ∧ dict_get "name" d = Some (JStr n)
      ∧ dict_get "price" d = Some (JFloat p).
Proof.
  split.
  - unfold namePrice_route, namePrice. rewrite respond_run.
    unfold serialize_response.
    now rewrite (map_ext _ _ serialize_namePrice).
  - intros n s p t tp d. subst d. rewrite serialize_namePrice. simpl. auto.
Qed.


Lemma heap_set_same h a it : Objects.heap_set h a it a = it.
Proof. unfold Objects.heap_set. now rewrite Nat.eqb_refl. Qed.

Lemma heap_set_other h a it b :
  b ≠ a → Objects.heap_set h a it b = h b.
Proof.
  intros Hne. unfold Objects.heap_set.
  now destruct (Nat.eqb_spec b a).
Qed.

Lemma map_heap_set h a it refs :
  Forall (fun b => (b < a)%nat) refs →
  map (Objects.heap_set h a it) refs = map h refs.
Proof.
  induction 1 as [|b refs Hb _ IH]; [reflexivity|].
  cbn [map]. rewrite IH, heap_set_other by lia. reflexivity.
Qed.

(** The model with objects and the model with values agree on an append:
    the request's object is written in place and its reference stored, and
    the records behind the references are the registry of values that
    [create_item] builds. *)
Lemma post_items_refines body s :
  well_formed s →
  ∃ s',
    Objects.post_items body s = Ok (create_item_reply, s')
    ∧ create_item body (abstract s) = Ok (create_item_reply, abstract s')
    ∧ well_formed s'.
Proof.
  intros Hwf. rewrite create_item_run.
  unfold Objects.post_items, Objects.new_Item, Objects.create_item,
    Objects.bind, Objects.deref.
  cbn [Objects.heap Objects.fresh Objects.items Objects.fake_db].
  rewrite heap_set_same. unfold stored, well_formed, abstract.
  destruct (tax body) as [t|] eqn:Ht; cbn; eexists;
    (split; [reflexivity|]);
    cbn [Objects.heap Objects.fresh Objects.items Objects.fake_db];
    rewrite map_app; cbn [map]; rewrite !heap_set_same;
    rewrite ?map_heap_set by exact Hwf.
  - split; [reflexivity|].
    apply Forall_app. split; [|repeat constructor].
    eapply Forall_impl; [exact Hwf|]. cbn. lia.
  - split; [reflexivity|].
    apply Forall_app. split; [|repeat constructor].
    eapply Forall_impl; [exact Hwf|]. cbn. lia.
Qed.

(** In this model a write through a reference is seen in the store: the
    append changes the request's object in place. *)
Example post_items_writes_in_place :
  ∃ s',
    Objects.post_items gadget empty_store = Ok (create_item_reply, s')
    ∧ Objects.items s' = [0%nat]
    ∧ total_price (Objects.heap s' 0%nat) = Some 5.5%float
    ∧ Objects.heap s' 0%nat ≠ gadget.
Proof.
  eexists. split; [reflexivity|]. split; [reflexivity|].
  split; [reflexivity|]. cbn. discriminate.
Qed.


(** ** The window over [fake_db] *)

(** C5, as worded, does not hold of the code: a negative bound is not
    clamped but counts from the end.  With limit = -1 the slice of the
    three sample rows has two rows, which is more than the limit; with
    start = -1 it is the last row alone, not the rows from the clamped
    offset 0 on. *)
Lemma read_items_negative_bounds :
  (∃ rows,
     DbItems.read_items 0 (-1) initial_world = Ok (rows, initial_world)
     ∧ rows = [ [("item_id", JInt 1); ("name", JStr "item1")];
                [("item_id", JInt 2); ("name", JStr "item2")] ]
     ∧ ¬ (Z.of_nat (length rows) ≤ -1))
  ∧ (∃ rows,
       DbItems.read_items (-1) 10 initial_world = Ok (rows, initial_world)
       ∧ rows = [ [("item_id", JInt 3); ("name", JStr "item3")] ]
       ∧ rows ≠ take 10 (drop 0 (fake_db initial_world))).
Proof.
  split; eexists; (split; [reflexivity|]); (split; [reflexivity|]).
  - simpl. lia.
  - discriminate.
Qed.

(** C5 (amended): for start and limit that are not negative, the window is
    the rows from offset start on, at most limit of them: nothing when
    start is at or past the end, and all the remaining rows when
    start + limit reaches past the end; no error arises, and the globals
    are unchanged.  Left-out parameters mean start 0 and limit 10.  On three
    rows, (0, 10) gives all three and (5, 10) none. *)
Theorem read_items_window w start limit :
  0 ≤ start → 0 ≤ limit →
  let rows := take (Z.to_nat limit) (drop (Z.to_nat start) (fake_db w)) in
  DbItems.read_items start limit w = Ok (rows, w)
  ∧ Z.of_nat (length rows) ≤ limit
  ∧ (Z.of_nat (length (fake_db w)) ≤ start → rows = [])
  ∧ (Z.of_nat (length (fake_db w)) ≤ start + limit →
     rows = drop (Z.to_nat start) (fake_db w))
  ∧ DbItems.read_items_query None None w = DbItems.read_items 0 10 w
  ∧ DbItems.read_items_query (Some start) None w
    = DbItems.read_items start 10 w
  ∧ DbItems.read_items_query None (Some limit) w
    = DbItems.read_items 0 limit w
  ∧ (length (fake_db w) = 3%nat →
     DbItems.read_items 0 10 w = Ok (fake_db w, w)
     ∧ DbItems.read_items 5 10 w = Ok ([], w)).
Proof.
  intros Hs Hl rows. subst rows.
  split; [rewrite window_run; now rewrite py_slice_nonneg|].
  split; [rewrite length_take; lia|].
  split; [intros Hge; rewrite drop_ge by lia; apply take_nil|].
  split; [intros Hge; apply take_ge; rewrite length_drop; lia|].
  do 3 (split; [reflexivity|]).
  intros Hlen. rewrite !window_run, !py_slice_nonneg by lia.
  split; do 2 f_equal.
  - apply take_ge. simpl. rewrite Hlen. lia.
  - rewrite drop_ge by (rewrite Hlen; lia). reflexivity.
Qed.

Lemma read_items_window_witness :
  DbItems.read_items 1 1 initial_world
  = Ok ([ [("item_id", JInt 2); ("name", JStr "item2")] ], initial_world)
  ∧ DbItems.read_items 0 10 initial_world = Ok (fake_db_init, initial_world)
  ∧ DbItems.read_items 5 10 initial_world = Ok ([], initial_world).
Proof.
  destruct (read_items_window initial_world 1 1) as (H1 & _ & _ & _ & _ & _ & _ & H3);
    [lia | lia |].
  split; [exact H1|]. apply H3. reflexivity.
Defined.

(** C7: the window reads [fake_db] only.  Whatever is appended to the
    registry, the same request gives the same rows before and after; the
    rows are a sub-sequence of [fake_db], and with [fake_db] fixed the
    content of the registry has no influence on them. *)
Theorem read_items_window_frame cs start limit w :
  ∃ w' rows,
    create_items cs w = Ok (tt, w')
    ∧ items w' = (items w ++ map stored cs)%list
    ∧ DbItems.read_items start limit w = Ok (rows, w)
    ∧ DbItems.read_items start limit w' = Ok (rows, w')
    ∧ sublist rows (fake_db w)
    ∧ ∀ its,
        DbItems.read_items start limit
          {| fake_db := fake_db w; items := its |}
        = Ok (rows, {| fake_db := fake_db w; items := its |}).
Proof.
  eexists. exists (py_slice (fake_db w) start (start + limit)).
  split; [apply create_items_run|].
  repeat split.
  unfold py_slice.
  etransitivity; [apply sublist_take | apply sublist_drop].
Qed.

(** ** Errors *)








(** The addition is the one step that could fail: without the guard on
    [tax], adding [None] to the price raises. *)
Example py_add_None_raises w : py_add 1%float None w = Raise TypeError.
Proof. reflexivity. Qed.

(** * Further properties of the handlers *)

(** ** More on the window *)

(** Adjustment keeps the order of two bounds on the same side of zero. *)
Lemma adjust_index_mono n i j :
  0 ≤ n → i ≤ j → j < 0 ∨ 0 ≤ i →
  adjust_index n i ≤ adjust_index n j.
Proof.
  unfold adjust_index.
  destruct (Z.ltb_spec i 0), (Z.ltb_spec j 0); lia.
Qed.

(** The distance between two adjusted bounds is at most the distance
    between the bounds, unless the first is an offset from the front and
    the second one from the end. *)
Lemma adjust_index_gap n i j :
  0 ≤ n → i ≤ j →
  adjust_index n j - adjust_index n i ≤ j - i.
Proof.
  unfold adjust_index.
  destruct (Z.ltb_spec i 0), (Z.ltb_spec j 0); lia.
Qed.

Lemma py_slice_split {A : Type} (l : list A) start stop :
  ∃ pre post, l = (pre ++ py_slice l start stop ++ post)%list.
Proof.
  unfold py_slice. cbv zeta.
  set (k := Z.to_nat (_ - _)). set (lo := Z.to_nat _).
  exists (take lo l), (drop k (drop lo l)).
  now rewrite (take_drop k), (take_drop lo).
Qed.

(** Pagination: for bounds that are not negative, a window of [a] rows
    followed by the next window of [b] rows is the window of [a + b] rows
    at the same offset. *)
Theorem read_items_pages w start a b :
  0 ≤ start → 0 ≤ a → 0 ≤ b →
  ∃ r1 r2,
    DbItems.read_items start a w = Ok (r1, w)
    ∧ DbItems.read_items (start + a) b w = Ok (r2, w)
    ∧ DbItems.read_items start (a + b) w = Ok ((r1 ++ r2)%list, w).
Proof.
  intros Hs Ha Hb. do 2 eexists.
  rewrite !window_run, !py_slice_nonneg by lia.
  split; [reflexivity|]. split; [reflexivity|].
  do 2 f_equal.
  rewrite !Z2Nat.inj_add by lia.
  rewrite <- (drop_drop (fake_db w)).
  symmetry. apply take_take_drop.
Qed.

Lemma read_items_pages_witness :
  ∃ r1 r2,
    DbItems.read_items 0 2 initial_world = Ok (r1, initial_world)
    ∧ DbItems.read_items (0 + 2) 5 initial_world = Ok (r2, initial_world)
    ∧ DbItems.read_items 0 (2 + 5) initial_world
      = Ok ((r1 ++ r2)%list, initial_world).
Proof. apply (read_items_pages initial_world 0 2 5); lia. Defined.

(** Indexing: for bounds that are not negative, the row at position [i] of
    the window, [i] below the limit, is the row of [fake_db] at position
    [start + i], and is missing exactly when [fake_db] has no such row. *)
Theorem read_items_lookup w start limit (i : nat) :
  0 ≤ start → 0 ≤ limit → Z.of_nat i < limit →
  ∃ rows,
    DbItems.read_items start limit w = Ok (rows, w)
    ∧ rows !! i = fake_db w !! (Z.to_nat start + i)%nat.
Proof.
  intros Hs Hl Hi. eexists.
  rewrite window_run, py_slice_nonneg by lia.
  split; [reflexivity|].
  rewrite lookup_take_lt by lia. apply lookup_drop.
Qed.

Lemma read_items_lookup_witness :
  ∃ rows,
    DbItems.read_items 1 2 initial_world = Ok (rows, initial_world)
    ∧ rows !! 1%nat = fake_db initial_world !! (Z.to_nat 1 + 1)%nat.
Proof. apply (read_items_lookup initial_world 1 2 1); lia. Defined.

(** Whatever the integers, the window is one contiguous stretch of
    [fake_db]: rows are neither reordered, nor repeated, nor made up, and
    the globals are left as they were. *)
Theorem read_items_contiguous w start limit :
  ∃ rows pre post,
    DbItems.read_items start limit w = Ok (rows, w)
    ∧ fake_db w = (pre ++ rows ++ post)%list.
Proof.
  destruct (py_slice_split (fake_db w) start (start + limit))
    as (pre & post & Hsplit).
  exists (py_slice (fake_db w) start (start + limit)), pre, post.
  split; [apply window_run | exact Hsplit].
Qed.

(** A limit that is not negative bounds the window for every start,
    negative ones included. *)
Theorem read_items_length_bound w start limit :
  0 ≤ limit →
  ∃ rows,
    DbItems.read_items start limit w = Ok (rows, w)
    ∧ Z.of_nat (length rows) ≤ limit.
Proof.
  intros Hl. eexists. split; [apply window_run|].
  unfold py_slice. rewrite length_take.
  pose proof (adjust_index_gap (Z.of_nat (length (fake_db w)))
                start (start + limit)).
  lia.
Qed.

Lemma read_items_length_bound_witness :
  ∃ rows,
    DbItems.read_items (-2) 1 initial_world = Ok (rows, initial_world)
    ∧ Z.of_nat (length rows) ≤ 1.
Proof. apply (read_items_length_bound initial_world (-2) 1). lia. Defined.

(** A limit of zero gives no rows at any start; so does a negative limit,
    as long as start and start + limit lie on the same side of zero. *)
Theorem read_items_nonpositive_limit w start limit :
  limit ≤ 0 →
  start < 0 ∨ 0 ≤ start + limit →
  DbItems.read_items start limit w = Ok ([], w).
Proof.
  intros Hl Hside. rewrite window_run. do 2 f_equal.
  unfold py_slice.
  pose proof (adjust_index_mono (Z.of_nat (length (fake_db w)))
                (start + limit) start).
  assert (Hgap : adjust_index (Z.of_nat (length (fake_db w))) (start + limit)
                 - adjust_index (Z.of_nat (length (fake_db w))) start ≤ 0)
    by lia.
  replace (Z.to_nat _) with 0%nat by lia. reflexivity.
Qed.

Lemma read_items_nonpositive_limit_witness :
  DbItems.read_items (-1) 0 initial_world = Ok ([], initial_world)
  ∧ DbItems.read_items 2 (-1) initial_world = Ok ([], initial_world).
Proof.
  split.
  - apply (read_items_nonpositive_limit initial_world (-1) 0); lia.
  - apply (read_items_nonpositive_limit initial_world 2 (-1)); lia.
Defined.

(** A negative limit that takes start + limit below zero does not give an
    empty window: the stop bound then counts from the end, and the window
    is what is left from offset start on once the last -(start + limit)
    rows are cut off. *)
Theorem read_items_negative_stop w start limit :
  0 ≤ start → start + limit < 0 →
  DbItems.read_items start limit w
  = Ok (drop (Z.to_nat start)
          (take (length (fake_db w) - Z.to_nat (- (start + limit)))
             (fake_db w)), w).
Proof.
  intros Hs Hstop. rewrite window_run. do 2 f_equal.
  unfold py_slice, adjust_index.
  destruct (Z.ltb_spec start 0) as [?|_]; [lia|].
  destruct (Z.ltb_spec (start + limit) 0) as [_|?]; [|lia].
  set (n := length (fake_db w)).
  destruct (Z_le_gt_dec (Z.of_nat n) start) as [Hge|Hlt].
  - rewrite (drop_ge (take _ _)) by (rewrite length_take; lia).
    rewrite drop_ge by lia. apply take_nil.
  - rewrite Z.min_l by lia.
    destruct (Z_le_gt_dec (Z.max (start + limit + Z.of_nat n) 0) start)
      as [Hempty|Hsome].
    + rewrite (drop_ge (take _ _)) by (rewrite length_take; lia).
      replace (Z.to_nat _) with 0%nat by lia. reflexivity.
    + rewrite take_drop_commute. f_equal. f_equal. lia.
Qed.

Lemma read_items_negative_stop_witness :
  DbItems.read_items 1 (-2) initial_world
  = Ok (drop (Z.to_nat 1)
          (take (length (fake_db initial_world) - Z.to_nat (- (1 + -2)))
             (fake_db initial_world)), initial_world).
Proof. apply (read_items_negative_stop initial_world 1 (-2)); lia. Defined.

(** A negative start counts from the end: when start + limit is not
    negative, the window is cut out of the first start + limit rows, from
    the row that lies -start before the end of [fake_db] (from the first
    row when there are fewer). *)
Theorem read_items_negative_start w start limit :
  start < 0 → 0 ≤ start + limit →
  DbItems.read_items start limit w
  = Ok (drop (length (fake_db w) - Z.to_nat (- start))
          (take (Z.to_nat (start + limit)) (fake_db w)), w).
Proof.
  intros Hs Hstop. rewrite window_run. do 2 f_equal.
  unfold py_slice, adjust_index.
  destruct (Z.ltb_spec start 0) as [_|?]; [|lia].
  destruct (Z.ltb_spec (start + limit) 0) as [?|_]; [lia|].
  set (n := length (fake_db w)).
  set (lo := (n - Z.to_nat (- start))%nat).
  replace (Z.to_nat (Z.max (start + Z.of_nat n) 0)) with lo by lia.
  destruct (Z_le_gt_dec (start + limit) (Z.of_nat n)) as [Hin|Hout].
  - rewrite Z.min_l by lia.
    destruct (Z_le_gt_dec (start + limit) (Z.of_nat lo)) as [Hempty|Hsome].
    + rewrite (drop_ge (take _ _)) by (rewrite length_take; lia).
      replace (Z.to_nat _) with 0%nat by lia. reflexivity.
    + rewrite take_drop_commute. f_equal. f_equal. lia.
  - rewrite Z.min_r by lia.
    rewrite !take_ge; [reflexivity | lia | rewrite length_drop; lia].
Qed.

Lemma read_items_negative_start_witness :
  DbItems.read_items (-2) 10 initial_world
  = Ok (drop (length (fake_db initial_world) - Z.to_nat (- -2))
          (take (Z.to_nat (-2 + 10)) (fake_db initial_world)), initial_world).
Proof. apply (read_items_negative_start initial_world (-2) 10); lia. Defined.

(** ** More on the registry *)

Lemma stored_name c : name (stored c) = name c.
Proof. unfold stored. destruct (tax c); reflexivity. Qed.

Lemma stored_description c : description (stored c) = description c.
Proof. unfold stored. destruct (tax c); reflexivity. Qed.

Lemma stored_idem c : stored (stored c) = stored c.
Proof.
  unfold stored at 1. rewrite stored_tax.
  destruct (tax c) as [t|] eqn:Ht; [|reflexivity].
  rewrite stored_price. unfold stored. rewrite Ht. reflexivity.
Qed.


Lemma reachable_inv w :
  reachable w →
  ∃ cs, w = {| fake_db := fake_db_init; items := map stored cs |}.
Proof.
  induction 1 as [|w c r w' _ [cs ->] Hrun].
  - now exists [].
  - rewrite create_item_run in Hrun. inversion Hrun; subst; clear Hrun.
    exists (cs ++ [c])%list. simpl. now rewrite map_app.
Qed.

Lemma reachable_of_posts cs :
  reachable {| fake_db := fake_db_init; items := map stored cs |}.
Proof.
  induction cs as [|c cs IH] using rev_ind; [apply reachable_init|].
  apply (reachable_create _ c create_item_reply _ IH).
  rewrite create_item_run. simpl. now rewrite map_app.
Qed.

(** The states the process can reach are exactly those where [fake_db]
    still holds its three sample rows and the registry is the sequence of
    records stored for some sequence of candidates. *)
Theorem reachable_iff w :
  reachable w
  ↔ ∃ cs, w = {| fake_db := fake_db_init; items := map stored cs |}.
Proof.
  split; [apply reachable_inv|]. intros [cs ->]. apply reachable_of_posts.
Qed.

(** The registry only grows, and only at its end: a run of appends leaves
    every record that was there at its index, and adds one record per
    candidate (a candidate posted twice is stored twice). *)
Theorem create_items_append_only cs w :
  ∃ w',
    create_items cs w = Ok (tt, w')
    ∧ items w `prefix_of` items w'
    ∧ length (items w') = (length (items w) + length cs)%nat
    ∧ ∀ (i : nat) it, items w !! i = Some it → items w' !! i = Some it.
Proof.
  eexists. split; [apply create_items_run|]. simpl.
  split; [now apply prefix_app_r|].
  split; [now rewrite length_app, length_map|].
  intros i it. apply lookup_app_l_Some.
Qed.

(** What is stored for a candidate differs from it in total_price at most,
    and posting a stored record again stores an equal record: the total is
    recomputed to the same value. *)
Theorem create_item_keeps_fields c w :
  ∃ it w',
    create_item c w = Ok (create_item_reply, w')
    ∧ last (items w') = Some it
    ∧ name it = name c
    ∧ description it = description c
    ∧ price it = price c
    ∧ tax it = tax c
    ∧ ∀ w2,
        create_item it w2
        = Ok (create_item_reply,
              {| fake_db := fake_db w2; items := items w2 ++ [it] |}).
Proof.
  exists (stored c). eexists. split; [apply create_item_run|]. simpl.
  rewrite last_snoc, stored_name, stored_description, stored_price,
    stored_tax.
  repeat (split; [reflexivity|]).
  intros w2. rewrite create_item_run. now rewrite stored_idem.
Qed.





(** The overflowed total is shown, as null. *)
Example minimal_route_heavy :
  itemsMinusDescription_http
    {| fake_db := fake_db_init; items := [stored heavy] |}
  = Ok ([ [("name", JStr "heavy"); ("price", JFloat 0x1p1023%float);
           ("tax", JFloat 0x1p1023%float); ("total_price", JNull)] ],
        {| fake_db := fake_db_init; items := [stored heavy] |}).
Proof. vm_compute. reflexivity. Qed.

(** ** The stateless handlers *)

(** A path segment names a food exactly when it is the value of a member:
    looking a member up by its value gives the member back, and a string
    is turned down exactly when it is none of the three values. *)
Theorem Food_of_value_iff s f :
  (Food_of_value s = Some f ↔ s = Food_value f)
  ∧ (Food_of_value s = None ↔ ∀ f', s ≠ Food_value f').
Proof.
  unfold Food_of_value, Food_members. cbn [List.find Food_value].
  destruct (String.eqb_spec "pizza" s) as [<-|Hp].
  { split; split.
    - now intros [= <-].
    - destruct f; [reflexivity | discriminate | discriminate].
    - discriminate.
    - intros H. now destruct (H pizza). }
  destruct (String.eqb_spec "burger" s) as [<-|Hb].
  { split; split.
    - now intros [= <-].
    - destruct f; [discriminate | reflexivity | discriminate].
    - discriminate.
    - intros H. now destruct (H burger). }
  destruct (String.eqb_spec "sushi" s) as [<-|Hs].
  { split; split.
    - now intros [= <-].
    - destruct f; [discriminate | discriminate | reflexivity].
    - discriminate.
    - intros H. now destruct (H sushi). }
  split; split.
  - discriminate.
  - intros ->. destruct f; simpl in *; congruence.
  - intros _ f' ->. destruct f'; simpl in *; congruence.
  - reflexivity.
Qed.

(** The reply of [/food/{foodName}] tells the members apart: pizza, and
    only pizza, is answered with "You ordered pizza"; every reply ends with
    the value of the member asked for, and two members never get the same
    reply. *)
Theorem get_food_message f w :
  ∃ msg,
    get_food f w = Ok ([("message", JStr msg)], w)
    ∧ (msg = "You ordered pizza" ↔ f = pizza)
    ∧ (f ≠ pizza → msg = ("You are getting " ++ Food_value f)%string)
    ∧ (∃ pre, msg = (pre ++ Food_value f)%string)
    ∧ ∀ f', get_food f' w = get_food f w → f' = f.
Proof.
  destruct f.
  - eexists. split; [reflexivity|]. split; [easy|]. split; [easy|].
    split; [now exists "You ordered "|].
    intros []; [reflexivity | discriminate | discriminate].
  - eexists. split; [reflexivity|].
    split; [split; discriminate|]. split; [reflexivity|].
    split; [now exists "You are getting "|].
    intros []; [discriminate | reflexivity | discriminate].
  - eexists. split; [reflexivity|].
    split; [split; discriminate|]. split; [reflexivity|].
    split; [now exists "You are getting "|].
    intros []; [discriminate | discriminate | reflexivity].
Qed.

(** In [/search/{query}] an empty [q] counts as no [q] at all: both give
    the plain reply, and only a [q] that is not empty is quoted in it. *)
Theorem search_items_empty_q query w :
  search_items query (Some "") w = search_items query None w
  ∧ search_items query None w
    = Ok ([("message", JStr ("Searching for " ++ query)%string)], w)
  ∧ ∀ s, s ≠ "" →
      search_items query (Some s) w
      = Ok ([("message",
              JStr ("Searching for " ++ query
                    ++ " with additional query " ++ s)%string)], w).
Proof.
  split; [reflexivity|]. split; [reflexivity|].
  intros s Hs. unfold search_items, py_truthy.
  destruct (String.eqb_spec s "") as [->|_]; [congruence | reflexivity].
Qed.

(** ** Runs of requests *)

Lemma world_eta w : {| fake_db := fake_db w; items := items w |} = w.
Proof. now destruct w. Qed.

Lemma get_food_run f w : ∃ d, get_food f w = Ok (d, w).
Proof.
  unfold get_food. destruct (Food_eqb f pizza); eexists; reflexivity.
Qed.

Lemma search_items_run query q w : ∃ d, search_items query q w = Ok (d, w).
Proof.
  unfold search_items. destruct (py_truthy q); eexists; reflexivity.
Qed.

Lemma handle_run r w :
  ∃ resp,
    handle r w
    = Ok (resp,
          {| fake_db := fake_db w;
             items := items w ++ map stored (posted [r]) |}).
Proof.
  destruct r as [| |n|f|start limit|query q|item| | |];
    simpl posted; simpl map; rewrite ?app_nil_r, ?world_eta;
    unfold handle, reply.
  - eexists; reflexivity.
  - eexists; reflexivity.
  - eexists; reflexivity.
  - destruct (get_food_run f w) as [d Hd].
    eexists. erewrite bind_ok by exact Hd. reflexivity.
  - eexists; reflexivity.
  - destruct (search_items_run query q w) as [d Hd].
    eexists. erewrite bind_ok by exact Hd. reflexivity.
  - eexists. erewrite bind_ok by apply create_item_run. reflexivity.
  - eexists; reflexivity.
  - eexists; reflexivity.
  - eexists; reflexivity.
Qed.

Lemma posted_cons r rs : posted (r :: rs) = (posted [r] ++ posted rs)%list.
Proof. destruct r; reflexivity. Qed.

Lemma serve_run rs : ∀ w,
  ∃ resps,
    serve rs w
    = Ok (resps,
          {| fake_db := fake_db w;
             items := items w ++ map stored (posted rs) |})
    ∧ length resps = length rs.
Proof.
  induction rs as [|r rs IH]; intros w.
  - exists []. simpl. now rewrite app_nil_r, world_eta.
  - destruct (handle_run r w) as [x Hx].
    destruct (IH {| fake_db := fake_db w;
                    items := items w ++ map stored (posted [r]) |})
      as (xs & Hxs & Hlen).
    exists (x :: xs). split; [|simpl; now rewrite Hlen].
    cbn [serve]. erewrite bind_ok by exact Hx.
    erewrite bind_ok by exact Hxs.
    unfold ret.
    now rewrite (posted_cons r rs), map_app, app_assoc.
Qed.

(** "GET should never change anything on the server" (line 169): every
    request other than the POST is answered without an exception and
    leaves both global lists as they were. *)
Theorem handle_GET_safe r w :
  is_POST r = false →
  ∃ resp, handle r w = Ok (resp, w).
Proof.
  intros Hget. destruct (handle_run r w) as [resp Hresp].
  exists resp. rewrite Hresp. do 2 f_equal.
  destruct r; try discriminate Hget; simpl;
    now rewrite app_nil_r, world_eta.
Qed.

Lemma handle_GET_safe_witness :
  ∃ resp,
    handle (GET_dbItems (Some (-1)) None)
      {| fake_db := fake_db_init; items := [priced_widget] |}
    = Ok (resp, {| fake_db := fake_db_init; items := [priced_widget] |}).
Proof.
  apply (handle_GET_safe (GET_dbItems (Some (-1)) None)
           {| fake_db := fake_db_init; items := [priced_widget] |}).
  reflexivity.
Defined.

(** Any run of requests is served to the end, one response per request;
    [fake_db] is never written, and the registry afterwards is the
    registry before followed by the stored form of the posted bodies, in
    the order of their requests.  A run from a reachable state ends in a
    reachable state. *)
Theorem serve_registry rs w :
  ∃ resps w',
    serve rs w = Ok (resps, w')
    ∧ length resps = length rs
    ∧ fake_db w' = fake_db w
    ∧ items w' = (items w ++ map stored (posted rs))%list
    ∧ (posted rs = [] → w' = w)
    ∧ (reachable w → reachable w').
Proof.
  destruct (serve_run rs w) as (resps & Hrun & Hlen).
  do 2 eexists. split; [exact Hrun|]. split; [exact Hlen|].
  split; [reflexivity|]. split; [reflexivity|]. split.
  - intros ->. simpl. now rewrite app_nil_r, world_eta.
  - intros Hr. apply reachable_inv in Hr as [cs ->]. simpl.
    rewrite <- map_app. apply reachable_of_posts.
Qed.
